(* ====================================================================== *)
(* Bernoulli GLM raw benchmark simulator                                   *)
(*   bayesflow/simulators/benchmark_simulators/bernoulli_glm_raw.py        *)
(*                                                                        *)
(* Modelling conventions.                                                  *)
(*  - numpy's float64 scalars are idealised as the real numbers R of the   *)
(*    Standard Library (exact arithmetic: no rounding, no NaN, no inf);    *)
(*    np.sqrt is Stdlib's sqrt and scipy's expit is 1 / (1 + exp (- x)).   *)
(*    Strict inequalities and exact identities proved here are therefore   *)
(*    facts of exact arithmetic; where float64 rounding breaks one, the    *)
(*    linear predictor is also given in IEEE binary64 (eta_f64) and the    *)
(*    failure is shown there.                                              *)
(*  - 2-D arrays of statically known shape are MathComp matrices; arrays   *)
(*    that cross the class boundary (params, the returned samples) carry   *)
(*    their shape at run time.                                             *)
(*  - np.random.Generator is an interface (record Generator): every draw   *)
(*    takes the generator state and returns the variates with the new      *)
(*    state.  Python exceptions are the left summand of a result type;     *)
(*    the generator state survives a raised exception, as in Python.       *)
(* ====================================================================== *)

From Corelib Require Import PrimFloat.
From Stdlib Require Import Reals ZArith ClassicalEpsilon FunctionalExtensionality.
From HB Require Import structures.
From mathcomp Require Import boot order algebra.

Set Implicit Arguments.
Unset Strict Implicit.
Unset Printing Implicit Defensive.

Import Order.TTheory GRing.Theory Num.Theory.

(* ---------------------------------------------------------------------- *)
(* The Standard Library reals as a MathComp real field                     *)
(* ---------------------------------------------------------------------- *)

Definition Reqb (x y : R) : bool :=
  if Req_dec_T x y is left _ then true else false.

Lemma ReqbP : Equality.axiom Reqb.
Proof. by move=> x y; rewrite /Reqb; case: Req_dec_T => h; constructor. Qed.

HB.instance Definition _ := hasDecEq.Build R ReqbP.

Definition Rfind (P : pred R) (n : nat) : option R :=
  match excluded_middle_informative (exists x, P x) with
  | left h => Some (proj1_sig (constructive_indefinite_description _ h))
  | right _ => None
  end.

Lemma Rfind_correct (P : pred R) n x : Rfind P n = Some x -> P x.
Proof.
rewrite /Rfind; case: excluded_middle_informative => // h [<-].
exact: (proj2_sig (constructive_indefinite_description _ h)).
Qed.

Lemma Rfind_complete (P : pred R) : (exists x, P x) -> exists n, Rfind P n.
Proof.
by move=> h; exists 0%N; rewrite /Rfind; case: excluded_middle_informative.
Qed.

Lemma Rfind_ext (P Q : pred R) : P =1 Q -> Rfind P =1 Rfind Q.
Proof. by move=> /functional_extensionality ->. Qed.

HB.instance Definition _ :=
  hasChoice.Build R Rfind_correct Rfind_complete Rfind_ext.

Lemma RaddA : associative Rplus.
Proof. by move=> x y z; rewrite Rplus_assoc. Qed.
Lemma Radd0 : left_id (IZR 0) Rplus.
Proof. exact: Rplus_0_l. Qed.
Lemma RaddN : left_inverse (IZR 0) Ropp Rplus.
Proof. exact: Rplus_opp_l. Qed.

HB.instance Definition _ :=
  GRing.isZmodule.Build R RaddA Rplus_comm Radd0 RaddN.

Lemma RmulA : associative Rmult.
Proof. by move=> x y z; rewrite Rmult_assoc. Qed.
Lemma Rmul1 : left_id (IZR 1) Rmult.
Proof. exact: Rmult_1_l. Qed.
Lemma RmulDl : left_distributive Rmult Rplus.
Proof. by move=> x y z; rewrite Rmult_plus_distr_r. Qed.
Lemma Rone_neq0 : IZR 1 != IZR 0.
Proof. by apply/eqP; exact: R1_neq_R0. Qed.

HB.instance Definition _ :=
  GRing.Zmodule_isComNzRing.Build R RmulA Rmult_comm Rmul1 RmulDl Rone_neq0.

Local Open Scope ring_scope.

Lemma RmulV (x : R) : x != 0 -> Rmult (Rinv x) x = IZR 1.
Proof. by move=> /eqP h; rewrite Rinv_l. Qed.

HB.instance Definition _ := GRing.ComNzRing_isField.Build R RmulV Rinv_0.

Definition Rleb (x y : R) : bool :=
  if Rle_dec x y is left _ then true else false.
Definition Rltb (x y : R) : bool :=
  if Rlt_dec x y is left _ then true else false.

Lemma RlebP x y : reflect (Rle x y) (Rleb x y).
Proof. by rewrite /Rleb; case: Rle_dec => h; constructor. Qed.
Lemma RltbP x y : reflect (Rlt x y) (Rltb x y).
Proof. by rewrite /Rltb; case: Rlt_dec => h; constructor. Qed.

Lemma Rleb0D x y : Rleb 0 x -> Rleb 0 y -> Rleb 0 (x + y).
Proof.
by move=> /RlebP hx /RlebP hy; apply/RlebP; exact: Rplus_le_le_0_compat.
Qed.
Lemma Rleb0M x y : Rleb 0 x -> Rleb 0 y -> Rleb 0 (x * y).
Proof. by move=> /RlebP hx /RlebP hy; apply/RlebP; exact: Rmult_le_pos. Qed.
Lemma Rleb0_anti x : Rleb 0 x -> Rleb x 0 -> x = 0.
Proof. by move=> /RlebP hx /RlebP hy; exact: Rle_antisym. Qed.
Lemma Rleb_sub x y : Rleb 0 (y - x) = Rleb x y.
Proof.
apply/RlebP/RlebP; rewrite /GRing.add /GRing.opp /GRing.zero /=; Lra.lra.
Qed.
Lemma Rleb0_total x : Rleb 0 x || Rleb x 0.
Proof.
apply/orP; case: (Rle_dec 0 x) => h; [left|right]; apply/RlebP => //.
by rewrite /GRing.zero /=; Lra.lra.
Qed.
Lemma RabsN x : Rabs (- x) = Rabs x.
Proof. exact: Rabs_Ropp. Qed.
Lemma Rabs_ge0 x : Rleb 0 x -> Rabs x = x.
Proof. by move=> /RlebP h; exact: Rabs_pos_eq. Qed.
Lemma Rltb_def x y : Rltb x y = (y != x) && Rleb x y.
Proof.
apply/RltbP/andP => [h|[/eqP h /RlebP h']].
  by split; [apply/eqP|apply/RlebP]; Lra.lra.
by case: h' => // e; case: h.
Qed.

HB.instance Definition _ :=
  Num.IntegralDomain_isLeReal.Build R Rleb0D Rleb0M Rleb0_anti Rleb_sub
    Rleb0_total RabsN Rabs_ge0 Rltb_def.

(* Bridges between the boolean order of the field structure and the
   propositional order the Standard Library states its lemmas with. *)
Lemma RleP (x y : R) : reflect (Rle x y) (x <= y).
Proof. exact: RlebP. Qed.
Lemma RltP (x y : R) : reflect (Rlt x y) (x < y).
Proof. exact: RltbP. Qed.

(* From here on real-valued expressions are read in the scope of the field
   structure, also under sqrt and exp. *)
Bind Scope ring_scope with R.
Arguments sqrt _%_ring_scope.
Arguments exp _%_ring_scope.

Lemma sqrt_ge0 (x : R) : 0 <= sqrt x.
Proof. by apply/RleP; exact: sqrt_pos. Qed.

Lemma exp_gt0 (x : R) : 0 < exp x.
Proof. by apply/RltP; exact: exp_pos. Qed.

Lemma exp_lt (x y : R) : x < y -> exp x < exp y.
Proof. by move=> /RltP h; apply/RltP; exact: exp_increasing. Qed.

(* ---------------------------------------------------------------------- *)
(* Python exceptions                                                       *)
(* ---------------------------------------------------------------------- *)

Inductive exn : Type := IndexError | ValueError | LinAlgError.

Definition result (A : Type) : Type := (exn + A)%type.
Definition ok {A : Type} (a : A) : result A := inr a.
Definition raise {A : Type} (e : exn) : result A := inl e.

Definition rbind {A B : Type} (r : result A) (k : A -> result B) : result B :=
  match r with
  | inl e => inl e
  | inr a => k a
  end.

Notation "x <-? r ; k" := (rbind r (fun x => k))
  (at level 200, r at level 100, k at level 200, right associativity).

(* ---------------------------------------------------------------------- *)
(* The numpy and scipy operations the class calls                          *)
(* ---------------------------------------------------------------------- *)

(* np.zeros((m, n)) *)
Definition zeros (m n : nat) : 'M[R]_(m, n) := 0.

(* np.arange(n) *)
Definition arange (n : nat) : seq nat := iota 0 n.

(* s[k:] and s[:-k] *)
Definition slice_from {A : Type} (k : nat) (s : seq A) : seq A := drop k s.
Definition slice_upto_last {A : Type} (k : nat) (s : seq A) : seq A :=
  take (size s - k) s.

(* A[r, c] = v for one in-range position. *)
Definition store {m n : nat} (A : 'M[R]_(m, n)) (r c : nat) (v : R) :
  'M[R]_(m, n) :=
  \matrix_(i, j) if ((i : nat) == r) && ((j : nat) == c) then v else A i j.

(* A[rows, cols] = vals with paired one-dimensional index arrays and a value
   array of the same length: position k of the index arrays receives
   vals[k].  An index outside the array, or index arrays of different
   lengths, raise IndexError; a value array of another length raises
   ValueError. *)
Fixpoint setitem {m n : nat} (A : 'M[R]_(m, n)) (rows cols : seq nat)
    (vals : seq R) : result 'M[R]_(m, n) :=
  match rows, cols, vals with
  | [::], [::], [::] => ok A
  | r :: rows', c :: cols', v :: vals' =>
      if (r < m)%N && (c < n)%N then setitem (store A r c v) rows' cols' vals'
      else raise IndexError
  | [::], _ :: _, _ | _ :: _, [::], _ => raise IndexError
  | _, _, _ => raise ValueError
  end.

(* A[rows, cols] = v with a scalar v, broadcast over the index arrays. *)
Definition setitem_scalar {m n : nat} (A : 'M[R]_(m, n))
    (rows cols : seq nat) (v : R) : result 'M[R]_(m, n) :=
  setitem A rows cols (nseq (size rows) v).

(* np.linalg.inv: LinAlgError on a singular matrix. *)
Definition linalg_inv {n : nat} (A : 'M[R]_n) : result 'M[R]_n :=
  if A \in unitmx then ok (invmx A) else raise LinAlgError.

(* scipy.special.expit, the logistic sigmoid, in exact arithmetic.  (The
   float64 function rounds, and returns exactly 1.0 or 0.0 for arguments of
   large magnitude.) *)
Definition expit (x : R) : R := 1 / (1 + exp (- x)).

(* A one-dimensional array of statically known length n is a row vector;
   tolist and of_list convert from and to run-time shaped arrays. *)
Definition tolist {n : nat} (v : 'rV[R]_n) : seq R :=
  [seq v ord0 k | k <- enum 'I_n].
Definition of_list (n : nat) (s : seq R) : 'rV[R]_n :=
  \row_(k < n) nth 0 s k.

(* params[k] *)
Definition getitem (s : seq R) (k : nat) : result R :=
  if (k < size s)%N then ok (nth 0 s k) else raise IndexError.

(* np.append(x, v) for a scalar x and a 1-D array v. *)
Definition np_append {n : nat} (x : R) (v : 'rV[R]_n) : seq R :=
  x :: tolist v.

(* A @ f for a 2-D array A and a 1-D array f: the inner dimensions must
   agree, the result is 1-D. *)
Definition matvec {m n : nat} (A : 'M[R]_(m, n)) (f : seq R) :
  result 'rV[R]_m :=
  if size f == n then ok (A *m (of_list n f)^T)^T else raise ValueError.

(* v + x for a 1-D array v and a scalar x, broadcast over the entries. *)
Definition add_scalar {n : nat} (v : 'rV[R]_n) (x : R) : 'rV[R]_n :=
  v + const_mx x.

(* np.expand_dims(z, axis=-1): shape (n,) becomes (n, 1). *)
Definition expand_dims_last {n : nat} (z : 'rV[R]_n) : 'cV[R]_n := z^T.

(* np.c_[A, B]: the columns of B after the columns of A. *)
Definition np_c_ {m n1 n2 : nat} (A : 'M[R]_(m, n1)) (B : 'M[R]_(m, n2)) :
  'M[R]_(m, n1 + n2) := row_mx A B.

(* A returned 2-D array, with its shape. *)
Record ndarray2 : Type := NdArray2 {
  nrows : nat;
  ncols : nat;
  entries : 'M[R]_(nrows, ncols)
}.

(* X[i, j] for an in-range position (0 elsewhere, never used out of range). *)
Definition getitem2 (X : ndarray2) (i j : nat) : R :=
  match insub i, insub j with
  | Some i', Some j' => entries X i' j'
  | _, _ => 0
  end.

(* ---------------------------------------------------------------------- *)
(* np.random.Generator                                                     *)
(* ---------------------------------------------------------------------- *)

(* The methods of the generator the class uses.  Each one reads the state
   of the bit generator and returns the variates and the advanced state.
   A binomial variate with n trials is a number of successes in 0..n. *)
Record Generator : Type := MkGenerator {
  gstate : Type;
  (* Generator.normal(loc, scale): one variate *)
  rng_normal : R -> R -> gstate -> R * gstate;
  (* Generator.normal(loc, scale, size=(m, n)) *)
  rng_normal_size : R -> R -> forall m n : nat, gstate -> 'M[R]_(m, n) * gstate;
  (* Generator.multivariate_normal(mean, cov) *)
  rng_multivariate_normal :
    forall n : nat, 'rV[R]_n -> 'M[R]_n -> gstate -> 'rV[R]_n * gstate;
  (* Generator.binomial(n, p) for an array p of probabilities *)
  rng_binomial :
    forall n k : nat, 'rV[R]_k -> gstate -> 'rV['I_n.+1]_k * gstate
}.

Arguments rng_normal : clear implicits.
Arguments rng_normal_size : clear implicits.
Arguments rng_multivariate_normal g {n}.
Arguments rng_binomial g n {k}.

Section Simulator.

Variable gen : Generator.
Notation G := (gstate gen).

(* Computations that use the generator and may raise: the state is threaded
   through, and is kept when an exception is raised. *)
Definition Rand (A : Type) : Type := G -> result A * G.

Definition ret {A : Type} (a : A) : Rand A := fun g => (ok a, g).
Definition lift {A : Type} (r : result A) : Rand A := fun g => (r, g).
Definition draw {A : Type} (d : G -> A * G) : Rand A :=
  fun g => let: (a, g') := d g in (ok a, g').
Definition bind {A B : Type} (m : Rand A) (k : A -> Rand B) : Rand B :=
  fun g => match m g with
           | (inl e, g') => (inl e, g')
           | (inr a, g') => k a g'
           end.

Notation "x <- m ;; k" := (bind m (fun x => k))
  (at level 200, m at level 100, k at level 200, right associativity).

(* rng.normal(size=(m, n)) with the default loc=0.0 and scale=1.0; a
   negative dimension raises ValueError before anything is drawn. *)
Definition normal_size (loc scale : R) (m : nat) (n : Z) :
  Rand 'M[R]_(m, Z.to_nat n) :=
  if Z.ltb n Z0 then lift (raise ValueError)
  else draw (rng_normal_size gen loc scale m (Z.to_nat n)).

(* rng.binomial(n=n, p=p): p outside [0, 1] raises ValueError. *)
Definition binomial (n : nat) {k : nat} (p : 'rV[R]_k) : Rand 'rV['I_n.+1]_k :=
  if [forall t, (0 <= p ord0 t) && (p ord0 t <= 1)]
  then draw (rng_binomial gen n p)
  else lift (raise ValueError).

(* ---------------------------------------------------------------------- *)
(* class BernoulliGLMRaw                                                   *)
(* ---------------------------------------------------------------------- *)

Record BernoulliGLMRaw : Type := MkSim {
  T : Z;
  rng : G;
  cov : 'M[R]_9
}.

(* The matrix F of __init__, lines 26-30. *)
Definition build_F : result 'M[R]_9 :=
  let F := zeros 9 9 in
  let i := arange 9 in
  F <-? setitem F i i [seq 1 + sqrt (k%:R / 9%:R) | k <- i];
  F <-? setitem_scalar F (slice_from 1 i) (slice_upto_last 1 i) (- 2%:R);
  F <-? setitem_scalar F (slice_from 2 i) (slice_upto_last 2 i) 1;
  ok F.

(* __init__(self, T, rng): default_rng is the generator np.random.default_rng()
   would hand out, seeded from the operating system. *)
Definition __init__ (T : Z) (rng : option G) (default_rng : G) :
  result BernoulliGLMRaw :=
  let rng := if rng is Some g then g else default_rng in
  F <-? build_F;
  cov <-? linalg_inv (F^T *m F);
  ok (MkSim T rng cov).

(* A method call: the body runs on self.rng, which it advances in place;
   no method assigns to self.T or self.cov. *)
Definition method {A : Type} (body : BernoulliGLMRaw -> Rand A)
    (self : BernoulliGLMRaw) : result A * BernoulliGLMRaw :=
  let: (r, g) := body self (rng self) in (r, MkSim (T self) g (cov self)).

Definition prior_body (self : BernoulliGLMRaw) : Rand (seq R) :=
  beta <- draw (rng_normal gen 0 2%:R);;
  f <- draw (rng_multivariate_normal gen (zeros 1 9) (cov self));;
  ret (np_append beta f).

Definition prior : BernoulliGLMRaw -> result (seq R) * BernoulliGLMRaw :=
  method prior_body.

(* p = expit(V.T @ f + beta) for a drawn design matrix V. *)
Definition success_prob {n : nat} (V : 'M[R]_(9, n)) (f : seq R) (beta : R) :
  result 'rV[R]_n :=
  eta <-? matvec V^T f;
  ok (map_mx expit (add_scalar eta beta)).

Definition observation_model_body (params : seq R) (self : BernoulliGLMRaw) :
  Rand ndarray2 :=
  beta <- lift (getitem params 0);;
  let f := slice_from 1 params in
  V <- normal_size 0 1 9 (T self);;
  p <- lift (success_prob V f beta);;
  z <- binomial 1 p;;
  let z := map_mx (fun o : 'I_2 => (o : nat)%:R) z in
  ret (NdArray2 (np_c_ (expand_dims_last z) V^T)).

Definition observation_model (self : BernoulliGLMRaw) (params : seq R) :
  result ndarray2 * BernoulliGLMRaw :=
  method (observation_model_body params) self.

End Simulator.

Arguments MkSim {gen} T rng cov.

(* ---------------------------------------------------------------------- *)
(* Specification-side definitions                                          *)
(* ---------------------------------------------------------------------- *)

(* The entries of F in closed form. *)
Definition F_spec : 'M[R]_9 :=
  \matrix_(i, j)
    if (i : nat) == j then 1 + sqrt ((i : nat)%:R / 9%:R)
    else if (i : nat) == j.+1 then - 2%:R
    else if (i : nat) == j.+2 then 1
    else 0.

(* The prior covariance in closed form. *)
Definition Sigma : 'M[R]_9 := invmx (F_spec^T *m F_spec).

(* Every entry strictly below the diagonal is zero. *)
Definition upper_triangular {n : nat} (A : 'M[R]_n) : Prop :=
  forall i j : 'I_n, (j < i)%N -> A i j = 0.

(* Every entry strictly above the diagonal is zero. *)
Definition lower_triangular {n : nat} (A : 'M[R]_n) : Prop :=
  forall i j : 'I_n, (i < j)%N -> A i j = 0.

Definition positive_diagonal {n : nat} (A : 'M[R]_n) : Prop :=
  forall i : 'I_n, 0 < A i i.

Definition symmetric {n : nat} (A : 'M[R]_n) : Prop := A^T = A.

(* x^T A x > 0 for every non-zero column vector x. *)
Definition positive_definite {n : nat} (A : 'M[R]_n) : Prop :=
  forall x : 'cV[R]_n, x != 0 -> 0 < (x^T *m A *m x) 0 0.

(* A[i, j] by natural-number indices, for a matrix of static shape. *)
Definition mx_get {m n : nat} (A : 'M[R]_(m, n)) (i j : nat) : R :=
  getitem2 (NdArray2 A) i j.

(* The calls a client can make on an instance, and the instance after a
   sequence of them (whatever each call returned or raised). *)
Inductive call : Type :=
  | CallPrior
  | CallObservationModel (params : seq R).

Definition do_call {gen : Generator} (self : BernoulliGLMRaw gen) (c : call) :
  BernoulliGLMRaw gen :=
  match c with
  | CallPrior => (prior self).2
  | CallObservationModel params => (observation_model self params).2
  end.

Definition run_calls {gen : Generator} (self : BernoulliGLMRaw gen)
    (cs : seq call) : BernoulliGLMRaw gen :=
  foldl do_call self cs.

(* One full run: construct with an injected generator, sample the prior,
   simulate observations from the sample. *)
Definition full_run (gen : Generator) (T : Z) (g default_rng : gstate gen) :
  result (seq R * ndarray2) :=
  self <-? __init__ T (Some g) default_rng;
  let: (theta, self) := prior self in
  theta <-? theta;
  x <-? (observation_model self theta).1;
  ok (theta, x).

(* The design matrix a call of observation_model draws: it is determined by
   T and the state of the generator alone. *)
Definition design_matrix {gen : Generator} (self : BernoulliGLMRaw gen) :
  'M[R]_(9, Z.to_nat (T self)) :=
  (rng_normal_size gen 0 1 9 (Z.to_nat (T self)) (rng self)).1.

(* The state of the generator once the design matrix has been drawn. *)
Definition after_design {gen : Generator} (self : BernoulliGLMRaw gen) :
  gstate gen :=
  (rng_normal_size gen 0 1 9 (Z.to_nat (T self)) (rng self)).2.

(* The linear predictor and the success probabilities, entry by entry, for
   params = [beta, f_1, ..., f_9]. *)
Definition eta_at {n : nat} (V : 'M[R]_(9, n)) (params : seq R) (t : 'I_n) :
  R :=
  \sum_(k < 9) V k t * nth 0 params k.+1 + nth 0 params 0.

Definition p_row {n : nat} (V : 'M[R]_(9, n)) (params : seq R) : 'rV[R]_n :=
  \row_t (1 / (1 + exp (- eta_at V params t))).

(* The Bernoulli outcomes as reals, as they are stored in the result. *)
Definition outcomes {n : nat} (z : 'rV['I_2]_n) : 'rV[R]_n :=
  map_mx (fun o : 'I_2 => (o : nat)%:R) z.

(* A generator whose state counts the variates handed out so far.  A normal
   draw returns its location, entry (i, j) of a normal array is
   loc + scale * (i - j), a binomial draw rounds the probability. *)
Definition counting_gen : Generator :=
  @MkGenerator nat
    (fun loc _ g => (loc, g.+1))
    (fun loc scale m n g =>
       (\matrix_(i, j) (loc + scale * ((i : nat)%:R - (j : nat)%:R)),
        (g + m * n)%N))
    (fun n mean _ g => (mean, (g + n)%N))
    (fun n k p g =>
       (map_mx (fun x : R => if 2%:R^-1 <= x then ord_max else ord0) p,
        (g + k)%N)).

(* An instance over the counting generator, with T = 2. *)
Definition counting_sim : BernoulliGLMRaw counting_gen :=
  @MkSim counting_gen (Zpos 2%positive) 0%N Sigma.

(* Two parameter vectors that differ in the weight f_2 only. *)
Definition params_lo : seq R := [:: 0; 0; 0; 0; 0; 0; 0; 0; 0; 0].
Definition params_hi : seq R := [:: 0; 0; 1; 0; 0; 0; 0; 0; 0; 0].

(* An instance over the counting generator with a negative T. *)
Definition negative_sim : BernoulliGLMRaw counting_gen :=
  @MkSim counting_gen (Zneg 1%positive) 0%N Sigma.

(* Nine weights, and a sequence of calls whose first one raises. *)
Definition weights_hi : seq R := [:: 0; 1; 0; 0; 0; 0; 0; 0; 0].
Definition calls_with_failure : seq call :=
  [:: CallObservationModel [:: 0]; CallPrior].

(* An instance over the counting generator with T = 3: row 1 of its design
   matrix is [1, 0, -1]. *)
Definition counting_sim3 : BernoulliGLMRaw counting_gen :=
  @MkSim counting_gen (Zpos 3%positive) 0%N Sigma.

(* The linear predictor of one time step in IEEE binary64, as line 72
   evaluates it: Vcol is column t of V, the products V[k,t] * f[k] are
   accumulated from k = 0 on and the intercept is added last.  (numpy's
   matmul may accumulate in another order; the inputs below make every
   partial sum exact, so the order does not matter for them.) *)
Definition dot_f64 (u v : seq float) : float :=
  foldl PrimFloat.add 0%float [seq PrimFloat.mul uv.1 uv.2 | uv <- zip u v].

Definition eta_f64 (Vcol f : seq float) (beta : float) : float :=
  PrimFloat.add (dot_f64 Vcol f) beta.

(* A column of the design matrix with V[k,t] = 1.0 for every k, and two
   weight vectors that differ in f_0 only: 0.0 against 2^-60. *)
Definition Vcol_ones : seq float := nseq 9 1%float.
Definition f64_lo : seq float := nseq 9 0%float.
Definition f64_hi : seq float := 0x1p-60%float :: nseq 8 0%float.

(* ---------------------------------------------------------------------- *)
(* Construction: the matrix F and the covariance                           *)
(* ---------------------------------------------------------------------- *)

Lemma build_F_ok : build_F = ok F_spec.
Proof.
rewrite /build_F /setitem_scalar /=.
congr (ok _).
apply/matrixP => i j; rewrite !mxE.
case: i => [[|[|[|[|[|[|[|[|[|i]]]]]]]]] hi] //; case: j => [[|[|[|[|[|[|[|[|[|j]]]]]]]]] hj] //=.
Qed.

Lemma F_spec_lower (i j : 'I_9) : (i < j)%N -> F_spec i j = 0.
Proof.
move=> lt_ij; rewrite mxE.
have -> : ((i : nat) == j) = false by rewrite ltn_eqF.
have -> : ((i : nat) == j.+1) = false by rewrite ltn_eqF // ltnW.
by have -> : ((i : nat) == j.+2) = false by rewrite ltn_eqF // ltnW // ltnW.
Qed.

Lemma F_spec_diag_gt0 (i : 'I_9) : 0 < F_spec i i.
Proof. by rewrite mxE eqxx ltr_wpDr // sqrt_ge0. Qed.

Lemma F_spec_unit : F_spec \in unitmx.
Proof.
have trig : is_trig_mx F_spec by apply/is_trig_mxP; exact: F_spec_lower.
rewrite unitmxE unitfE det_trig //.
by apply/prodf_neq0 => i _; rewrite gt_eqF // F_spec_diag_gt0.
Qed.

Section Gram.

Variables (n : nat) (A : 'M[R]_n).
Hypothesis A_unit : A \in unitmx.

Lemma gram_unit : A^T *m A \in unitmx.
Proof. by rewrite unitmx_mul unitmx_tr A_unit. Qed.

Lemma gram_inv_sym : (invmx (A^T *m A))^T = invmx (A^T *m A).
Proof. by rewrite trmx_inv trmx_mul trmxK. Qed.

Lemma sum_sqr_gt0 (y : 'cV[R]_n) : y != 0 -> 0 < (y^T *m y) 0 0.
Proof.
move=> y_neq0.
have -> : (y^T *m y) 0 0 = \sum_i y i 0 ^+ 2.
  by rewrite mxE; apply: eq_bigr => i _; rewrite mxE expr2.
have sq_ge0 (i : 'I_n) : true -> 0 <= y i 0 ^+ 2 by rewrite sqr_ge0.
rewrite lt_neqAle sumr_ge0 // andbT eq_sym psumr_eq0 //.
apply: contraNN y_neq0 => /allP h; apply/eqP/matrixP => i j.
have := h i; rewrite mem_index_enum /= sqrf_eq0 => /(_ isT) /eqP.
by rewrite ord1 mxE.
Qed.

Lemma gram_inv_pd (x : 'cV[R]_n) :
  x != 0 -> 0 < (x^T *m invmx (A^T *m A) *m x) 0 0.
Proof.
move=> x_neq0; set S := invmx _.
pose y := S *m x.
have xE : x = (A^T *m A) *m y by rewrite /y mulKVmx // gram_unit.
have Ay_neq0 : A *m y != 0.
  apply: contraNN x_neq0 => /eqP Ay0.
  by rewrite xE -mulmxA Ay0 mulmx0.
have -> : x^T *m S *m x = (A *m y)^T *m (A *m y).
  rewrite -mulmxA -/y {1}xE !trmx_mul trmxK.
  by rewrite !mulmxA.
exact: sum_sqr_gt0.
Qed.

Lemma gram_inv_eig (lam : R) :
  lam <= 0 -> ~~ eigenvalue (invmx (A^T *m A)) lam.
Proof.
move=> lam_le0; apply/negP => /eigenvalueP [v vS v_neq0].
have vT_neq0 : v^T != 0.
  by apply: contraNN v_neq0 => /eqP h; rewrite -[v]trmxK h trmx0.
have := gram_inv_pd vT_neq0.
rewrite trmxK vS -scalemxAl mxE.
have q_gt0 : 0 < (v *m v^T) 0 0.
  by have := sum_sqr_gt0 vT_neq0; rewrite trmxK.
by rewrite pmulr_lgt0 // ltNge lam_le0.
Qed.

End Gram.

Section Construction.

Variable gen : Generator.
Implicit Types (self : BernoulliGLMRaw gen) (g : gstate gen).

Lemma linalg_inv_gram : linalg_inv (F_spec^T *m F_spec) = ok Sigma.
Proof. by rewrite /linalg_inv gram_unit // F_spec_unit. Qed.

Lemma init_ok (T0 : Z) (r : option (gstate gen)) (d : gstate gen) :
  __init__ T0 r d = ok (MkSim T0 (if r is Some g then g else d) Sigma).
Proof. by rewrite /__init__ build_F_ok /= linalg_inv_gram. Qed.

Lemma method_T A (body : BernoulliGLMRaw gen -> Rand gen A) self :
  T (method body self).2 = T self.
Proof. by rewrite /method; case: (body _ _). Qed.

Lemma method_cov A (body : BernoulliGLMRaw gen -> Rand gen A) self :
  cov (method body self).2 = cov self.
Proof. by rewrite /method; case: (body _ _). Qed.

Lemma do_call_cov self c : cov (do_call self c) = cov self.
Proof. by case: c => [|params]; rewrite /= method_cov. Qed.

Lemma run_calls_cov self cs : cov (run_calls self cs) = cov self.
Proof.
rewrite /run_calls; elim: cs self => [//|c cs IH] self /=.
by rewrite IH do_call_cov.
Qed.

(** C1: at construction the simulator builds the 9x9 matrix F with
    F[i,i] = 1 + sqrt(i/9), F[i,i-1] = -2 for i >= 1, F[i,i-2] = 1 for
    i >= 2 and zero elsewhere, stores Sigma = (F^T F)^-1 in self.cov, and
    no later call on the instance changes that field. *)
Theorem C1_construction (T0 : Z) (r : option (gstate gen)) (d : gstate gen) :
  exists (F : 'M[R]_9) self,
    [/\ build_F = ok F,
        (forall i : 'I_9, F i i = 1 + sqrt ((i : nat)%:R / 9%:R)) /\
        (forall i j : 'I_9, (i : nat) = j.+1 -> F i j = - 2%:R) /\
        (forall i j : 'I_9, (i : nat) = j.+2 -> F i j = 1) /\
        (forall i j : 'I_9, (i : nat) != j -> (i : nat) != j.+1 ->
           (i : nat) != j.+2 -> F i j = 0),
        __init__ T0 r d = ok self,
        cov self = invmx (F^T *m F) /\ (F^T *m F) *m cov self = 1%:M /\
          cov self *m (F^T *m F) = 1%:M
      & forall cs : seq call, cov (run_calls self cs) = cov self].
Proof.
exists F_spec, (MkSim T0 (if r is Some g then g else d) Sigma).
split; first exact: build_F_ok.
- split; first by move=> i; rewrite mxE eqxx.
  split; first by move=> i j e; rewrite mxE e gtn_eqF // eqxx.
  split.
    move=> i j e; rewrite mxE e.
    have -> : (j.+2 == j :> nat) = false by apply: gtn_eqF; exact: ltnW.
    by rewrite gtn_eqF // eqxx.
  by move=> i j /negbTE h0 /negbTE h1 /negbTE h2; rewrite mxE h0 h1 h2.
- exact: init_ok.
- rewrite /= /Sigma; split=> //.
  by rewrite mulmxV ?mulVmx // gram_unit // F_spec_unit.
- by move=> cs; rewrite run_calls_cov.
Qed.

(** C6 (as amended): the matrix F built at construction is lower-triangular
    with positive diagonal: every entry strictly above the diagonal is zero
    and every diagonal entry is strictly positive. *)
Theorem C6_lower_triangular :
  exists F : 'M[R]_9,
    [/\ build_F = ok F, lower_triangular F & positive_diagonal F].
Proof.
exists F_spec; split; first exact: build_F_ok.
- exact: F_spec_lower.
- exact: F_spec_diag_gt0.
Qed.

(** C7: the covariance cached at construction, Sigma = (F^T F)^-1, is
    symmetric and positive-definite, and no non-positive number is one of
    its eigenvalues; this holds for every instance, whatever T is. *)
Theorem C7_cov_spd (T0 : Z) (r : option (gstate gen)) (d : gstate gen) :
  exists self,
    [/\ __init__ T0 r d = ok self,
        symmetric (cov self),
        positive_definite (cov self)
      & forall lam : R, lam <= 0 -> ~~ eigenvalue (cov self) lam].
Proof.
exists (MkSim T0 (if r is Some g then g else d) Sigma).
split; first exact: init_ok.
- exact/gram_inv_sym.
- move=> x; exact/gram_inv_pd/F_spec_unit.
- move=> lam; exact/gram_inv_eig/F_spec_unit.
Qed.

End Construction.

(** C6 (as stated) fails: F[1,0] = -2 is a non-zero entry strictly below
    the diagonal, so F is not upper-triangular. *)
Lemma C6_counterexample :
  exists F : 'M[R]_9,
    [/\ build_F = ok F, F (inord 1) (inord 0) = - 2%:R
      & ~ upper_triangular F].
Proof.
exists F_spec; split; first exact: build_F_ok.
  by rewrite mxE !inordK.
move=> /(_ (inord 1) (inord 0)); rewrite !inordK // => /(_ isT).
by rewrite mxE !inordK //= => /eqP; rewrite oppr_eq0 pnatr_eq0.
Qed.

(* ---------------------------------------------------------------------- *)
(* The logistic link                                                       *)
(* ---------------------------------------------------------------------- *)

Lemma expit_gt0 (x : R) : 0 < expit x.
Proof.
by rewrite /expit divr_gt0 // ltr_wpDr // ltW // exp_gt0.
Qed.

Lemma expit_lt1 (x : R) : expit x < 1.
Proof.
have den_gt0 : 0 < 1 + exp (- x) by rewrite ltr_wpDr // ltW // exp_gt0.
by rewrite /expit ltr_pdivrMr // mul1r ltrDl exp_gt0.
Qed.

Lemma expit_lt (x y : R) : x < y -> expit x < expit y.
Proof.
move=> lt_xy; rewrite /expit !div1r.
have den_gt0 (u : R) : 0 < 1 + exp (- u) by rewrite ltr_wpDr // ltW // exp_gt0.
rewrite ltf_pV2 ?posrE ?den_gt0 // ltrD2l.
by apply: exp_lt; rewrite ltrN2.
Qed.

Lemma expit_in01 {n : nat} (eta : 'rV[R]_n) :
  [forall t, (0 <= map_mx expit eta ord0 t) && (map_mx expit eta ord0 t <= 1)].
Proof.
by apply/forallP => t; rewrite mxE (ltW (expit_gt0 _)) (ltW (expit_lt1 _)).
Qed.

(* ---------------------------------------------------------------------- *)
(* Run-time shaped arrays                                                  *)
(* ---------------------------------------------------------------------- *)

Lemma size_tolist {n : nat} (v : 'rV[R]_n) : size (tolist v) = n.
Proof. by rewrite /tolist size_map size_enum_ord. Qed.

Lemma nth_tolist {n : nat} (v : 'rV[R]_n) (k : 'I_n) :
  nth 0 (tolist v) k = v ord0 k.
Proof.
rewrite /tolist (nth_map k) ?size_enum_ord //.
by rewrite nth_ord_enum.
Qed.

Lemma getitem2E {m n : nat} (A : 'M[R]_(m, n)) (i : 'I_m) (j : 'I_n) :
  getitem2 (NdArray2 A) i j = A i j.
Proof.
rewrite /getitem2 /=.
by rewrite !insubT // => hi hj; congr (A _ _); apply: val_inj.
Qed.

Lemma mx_getE {m n : nat} (A : 'M[R]_(m, n)) (i : 'I_m) (j : 'I_n) :
  mx_get A i j = A i j.
Proof. exact: getitem2E. Qed.

(* ---------------------------------------------------------------------- *)
(* Sampling                                                                *)
(* ---------------------------------------------------------------------- *)

Section Sampling.

Variable gen : Generator.
Implicit Types (self : BernoulliGLMRaw gen) (g : gstate gen).
Implicit Types (params : seq R).

Lemma prior_run self :
  let bg := rng_normal gen 0 2%:R (rng self) in
  let fg := rng_multivariate_normal gen (zeros 1 9) (cov self) bg.2 in
  prior self = (ok (bg.1 :: tolist fg.1), MkSim (T self) fg.2 (cov self)).
Proof.
rewrite /prior /method /prior_body /bind /draw /ret /=.
case: (rng_normal _ _ _ _) => beta g1 /=.
by case: (rng_multivariate_normal _ _ _ _) => f g2.
Qed.

Lemma success_prob_ok {n : nat} (V : 'M[R]_(9, n)) params :
  size params = 10%N ->
  success_prob V (slice_from 1 params) (nth 0 params 0) = ok (p_row V params).
Proof.
move=> sz; rewrite /success_prob /matvec /slice_from size_drop sz /=.
congr (ok _); apply/matrixP => i t; rewrite !mxE ord1.
congr (1 / (1 + exp (- (_ + _)))).
by apply: eq_bigr => k _; rewrite !mxE nth_drop add1n.
Qed.

Lemma success_prob_bad {n : nat} (V : 'M[R]_(9, n)) (f : seq R) (beta : R) :
  size f != 9%N -> success_prob V f beta = raise ValueError.
Proof. by rewrite /success_prob /matvec => /negbTE ->. Qed.

Lemma p_row_in01 {n : nat} (V : 'M[R]_(9, n)) params :
  [forall t, (0 <= p_row V params ord0 t) && (p_row V params ord0 t <= 1)].
Proof.
apply/forallP => t; rewrite mxE.
by rewrite (ltW (expit_gt0 _)) (ltW (expit_lt1 _)).
Qed.

Lemma observation_model_run self params :
  size params = 10%N -> Z.ltb (T self) Z0 = false ->
  let V := design_matrix self in
  let zg := rng_binomial gen 1 (p_row V params) (after_design self) in
  observation_model self params =
    (ok (NdArray2 (np_c_ (expand_dims_last (outcomes zg.1)) V^T)),
     MkSim (T self) zg.2 (cov self)).
Proof.
move=> sz Tge0; rewrite /observation_model /method /observation_model_body.
rewrite /bind /lift /getitem sz /= /normal_size Tge0 /draw.
rewrite /design_matrix /after_design.
case: (rng_normal_size _ _ _ _ _ _) => V g1 /=.
rewrite (success_prob_ok V sz) /= /binomial p_row_in01 /draw.
by case: (rng_binomial _ _ _ _) => z g2.
Qed.


Lemma observation_model_bad self params :
  size params != 10%N ->
  observation_model self params =
    if params is [::] then (raise IndexError, self)
    else if Z.ltb (T self) Z0 then (raise ValueError, self)
    else (raise ValueError, MkSim (T self) (after_design self) (cov self)).
Proof.
case: self => T0 g c; case: params => [|beta f] //= sz.
rewrite /observation_model /method /observation_model_body /bind /lift /=.
rewrite /normal_size /after_design /=; case: ifP => // _.
rewrite /draw; case: (rng_normal_size _ _ _ _ _ _) => V g1 /=.
by rewrite /slice_from drop0 success_prob_bad.
Qed.

(** C2: for a length-10 parameter vector [beta, f] (and T >= 0),
    observation_model first draws the 9xT design matrix V with
    normal(loc=0, scale=1), then draws z with binomial(n=1, p) from the
    advanced generator, where p_t = 1 / (1 + exp (- eta_t)) and
    eta_t = sum_k V[k,t] * f_k + beta. *)
Theorem C2_observation_pipeline self params :
  size params = 10%N -> Z.le Z0 (T self) ->
  exists (V : 'M[R]_(9, Z.to_nat (T self))) g1
         (z : 'rV['I_2]_(Z.to_nat (T self))) g2,
    [/\ rng_normal_size gen 0 1 9 (Z.to_nat (T self)) (rng self) = (V, g1),
        forall t, p_row V params ord0 t =
          1 / (1 + exp (- (\sum_(k < 9) V k t * nth 0 params k.+1
                           + nth 0 params 0))),
        rng_binomial gen 1 (p_row V params) g1 = (z, g2)
      & observation_model self params =
          (ok (NdArray2 (np_c_ (expand_dims_last (outcomes z)) V^T)),
           MkSim (T self) g2 (cov self))].
Proof.
move=> sz /Z.ltb_ge Tge0.
exists (design_matrix self), (after_design self).
exists (rng_binomial gen 1 (p_row (design_matrix self) params)
          (after_design self)).1.
exists (rng_binomial gen 1 (p_row (design_matrix self) params)
          (after_design self)).2.
split.
- by rewrite /design_matrix /after_design; case: (rng_normal_size _ _ _ _ _ _).
- by move=> t; rewrite mxE.
- by case: (rng_binomial _ _ _ _).
- exact: observation_model_run.
Qed.

(** C3: for positive T and a length-10 parameter vector, observation_model
    returns an array with exactly T rows and 10 columns; every entry of
    column 0 is 0 or 1, and entry k+1 of row t is V[k,t] for the design
    matrix V drawn by the call. *)
Theorem C3_observation_shape self params :
  size params = 10%N -> Z.lt Z0 (T self) ->
  exists X : ndarray2,
    [/\ (observation_model self params).1 = ok X,
        Z.of_nat (nrows X) = T self,
        ncols X = 10%N,
        forall t, (t < nrows X)%N ->
          getitem2 X t 0 = 0 \/ getitem2 X t 0 = 1
      & forall t k, (t < nrows X)%N -> (k < 9)%N ->
          getitem2 X t k.+1 = mx_get (design_matrix self) k t].
Proof.
move=> sz Tgt0.
have Tge0 : Z.ltb (T self) Z0 = false by apply/Z.ltb_ge/Z.lt_le_incl.
rewrite (observation_model_run sz Tge0) /=.
set V := design_matrix self; set z := (rng_binomial _ _ _ _).1.
exists (NdArray2 (np_c_ (expand_dims_last (outcomes z)) V^T)).
split=> //=.
- by rewrite Z2Nat.id //; exact: Z.lt_le_incl.
- move=> t lt_t.
  rewrite (getitem2E _ (Ordinal lt_t) (lshift 9 ord0)) row_mxEl !mxE.
  by case: (z _ _) => [[|[|o]]] //= _; [left | right].
- move=> t k lt_t lt_k.
  rewrite (getitem2E _ (Ordinal lt_t) (rshift 1 (Ordinal lt_k))) row_mxEr.
  by rewrite mxE (mx_getE V (Ordinal lt_k) (Ordinal lt_t)).
Qed.

(** C4: prior draws beta with normal(0, 2) and then f with
    multivariate_normal(zeros(9), self.cov) from the advanced generator, and
    returns the length-10 vector with beta in entry 0 and f in entries
    1..9. *)
Theorem C4_prior self :
  exists (beta : R) g1 (f : 'rV[R]_9) g2 (theta : seq R),
    [/\ rng_normal gen 0 2%:R (rng self) = (beta, g1),
        rng_multivariate_normal gen (zeros 1 9) (cov self) g1 = (f, g2),
        prior self = (ok theta, MkSim (T self) g2 (cov self)),
        size theta = 10%N
      & nth 0 theta 0 = beta /\
        forall k : 'I_9, nth 0 theta k.+1 = f ord0 k].
Proof.
have := prior_run self.
case E1: (rng_normal _ _ _ _) => [beta g1] /=.
case E2: (rng_multivariate_normal _ _ _ _) => [f g2] /= ->.
exists beta, g1, f, g2, (beta :: tolist f); split=> //.
- by rewrite [LHS]/= size_tolist.
- by split=> // k; exact: nth_tolist.
Qed.

(** C5 (as amended): for a parameter vector that does not have exactly 10
    entries the call fails and returns no observation matrix.  An empty
    vector fails with IndexError before anything is drawn; a non-empty
    one fails with ValueError, for T >= 0 only after the design matrix has
    been drawn from the generator. *)
Theorem C5_bad_params self params :
  size params != 10%N ->
  observation_model self params =
    if params is [::] then (raise IndexError, self)
    else if Z.ltb (T self) Z0 then (raise ValueError, self)
    else (raise ValueError, MkSim (T self) (after_design self) (cov self)).
Proof. exact: observation_model_bad. Qed.

(* Frame conditions: observation_model reads T and the generator only,
   prior reads the covariance and the generator only. *)
Lemma observation_model_indep self1 self2 params :
  T self1 = T self2 -> rng self1 = rng self2 ->
  (observation_model self1 params).1 = (observation_model self2 params).1 /\
  rng (observation_model self1 params).2 =
    rng (observation_model self2 params).2.
Proof.
case: self1 => T1 g1 c1; case: self2 => T2 g2 c2 /= -> ->.
rewrite /observation_model /method /observation_model_body /=.
by case: (bind _ _ _).
Qed.

Lemma prior_indep self1 self2 :
  cov self1 = cov self2 -> rng self1 = rng self2 ->
  (prior self1).1 = (prior self2).1 /\
  rng (prior self1).2 = rng (prior self2).2.
Proof.
case: self1 => T1 g1 c1; case: self2 => T2 g2 c2 /= -> ->.
by rewrite !prior_run.
Qed.

Lemma eta_at_shift {n : nat} (V : 'M[R]_(9, n)) params params' (k : 'I_9)
    (t : 'I_n) :
  (forall j, j != k.+1 -> nth 0 params' j = nth 0 params j) ->
  eta_at V params' t =
    eta_at V params t + V k t * (nth 0 params' k.+1 - nth 0 params k.+1).
Proof.
move=> same; rewrite /eta_at (same 0%N) //.
rewrite (bigD1 k) //= [in RHS](bigD1 k) //=.
have -> : \sum_(i < 9 | i != k) V i t * nth 0 params' i.+1 =
          \sum_(i < 9 | i != k) V i t * nth 0 params i.+1.
  by apply: eq_bigr => i ne_ik; rewrite same.
by rewrite mulrBr; ring.
Qed.

(** C9 (as amended): in exact real arithmetic, with the design matrix V
    fixed (same T and generator state) and the intercept and the other
    weights unchanged, raising the weight f_k strictly raises p_t for every
    t with V[k,t] > 0 and strictly lowers it for every t with V[k,t] < 0. *)
Theorem C9_monotone self params params' (k : 'I_9) :
  size params = 10%N -> size params' = 10%N ->
  (forall j, j != k.+1 -> nth 0 params' j = nth 0 params j) ->
  nth 0 params k.+1 < nth 0 params' k.+1 ->
  let V := design_matrix self in
  exists p p' : 'rV[R]_(Z.to_nat (T self)),
    [/\ success_prob V (slice_from 1 params) (nth 0 params 0) = ok p,
        success_prob V (slice_from 1 params') (nth 0 params' 0) = ok p'
      & forall t, (0 < V k t -> p ord0 t < p' ord0 t) /\
                  (V k t < 0 -> p' ord0 t < p ord0 t)].
Proof.
move=> sz sz' same lt_k V.
exists (p_row V params), (p_row V params'); split; try exact: success_prob_ok.
move=> t; rewrite !mxE (eta_at_shift V t same).
have d_gt0 : 0 < nth 0 params' k.+1 - nth 0 params k.+1 by rewrite subr_gt0.
split=> sgn; apply: expit_lt.
- by rewrite ltrDl mulr_gt0.
- by rewrite gtrDl nmulr_rlt0.
Qed.

(** C10: __init__ does not inspect T: every integer is accepted and stored;
    with T = 0, observation_model on a length-10 parameter vector returns
    an empty array of shape (0, 10) instead of raising. *)
Theorem C10_no_T_validation (T0 : Z) (r : option (gstate gen))
    (d : gstate gen) :
  exists self,
    [/\ __init__ T0 r d = ok self,
        T self = T0
      & T0 = Z0 -> forall params, size params = 10%N ->
          exists X : ndarray2,
            [/\ (observation_model self params).1 = ok X,
                nrows X = 0%N & ncols X = 10%N]].
Proof.
exists (MkSim T0 (if r is Some g then g else d) Sigma).
split=> //; first exact: init_ok.
move=> -> params sz; rewrite observation_model_run //=.
set X := NdArray2 _; by exists X.
Qed.

End Sampling.

(* ---------------------------------------------------------------------- *)
(* Concrete runs over the counting generator                               *)
(* ---------------------------------------------------------------------- *)

Example arange_9 : arange 9 = [:: 0; 1; 2; 3; 4; 5; 6; 7; 8]%N.
Proof. by []. Qed.

Example sub_diagonal_indices :
  (slice_from 1 (arange 9), slice_upto_last 1 (arange 9)) =
  ([:: 1; 2; 3; 4; 5; 6; 7; 8]%N, [:: 0; 1; 2; 3; 4; 5; 6; 7]%N).
Proof. by []. Qed.

Example setitem_out_of_range :
  setitem (zeros 2 2) [:: 2%N] [:: 0%N] [:: 1] = raise IndexError.
Proof. by []. Qed.

Example getitem_empty : getitem [::] 0 = raise IndexError.
Proof. by []. Qed.

Example counting_prior_advances :
  rng (prior counting_sim).2 = 10%N /\
  (prior counting_sim).1 = ok (0 :: tolist (zeros 1 9)).
Proof. by rewrite prior_run. Qed.

Lemma counting_bad_run :
  observation_model counting_sim [:: 0] =
    (raise ValueError, @MkSim counting_gen (Zpos 2%positive) 18%N Sigma).
Proof. by rewrite observation_model_bad. Qed.

(** C5 (as stated) fails: on the length-1 vector [0] the call raises only
    after 18 variates (the 9x2 design matrix) have been drawn. *)
Lemma C5_counterexample :
  [/\ size [:: 0 : R] != 10%N,
      (observation_model counting_sim [:: 0]).1 = raise ValueError,
      rng counting_sim = 0%N
    & rng (observation_model counting_sim [:: 0]).2 = 18%N].
Proof. by rewrite counting_bad_run. Qed.

Lemma C5_bad_params_witness :
  size [:: 0 : R] != 10%N /\
  (observation_model counting_sim [:: 0]).1 = raise ValueError.
Proof.
have sz : size [:: 0 : R] != 10%N by [].
split; first exact: sz.
by rewrite (@C5_bad_params counting_gen counting_sim _ sz).
Defined.

Lemma C2_observation_pipeline_witness :
  [/\ size params_hi = 10%N, Z.le Z0 (T counting_sim)
    & exists X, (observation_model counting_sim params_hi).1 = ok X].
Proof.
have sz : size params_hi = 10%N by [].
have Tge0 : Z.le Z0 (T counting_sim) by [].
split=> //.
have [V [g1 [z [g2 [_ _ _ ->]]]]] := C2_observation_pipeline sz Tge0.
by eexists.
Defined.

Lemma C3_observation_shape_witness :
  [/\ size params_hi = 10%N, Z.lt Z0 (T counting_sim)
    & exists X, (observation_model counting_sim params_hi).1 = ok X /\
                nrows X = 2%N /\ ncols X = 10%N].
Proof.
have sz : size params_hi = 10%N by [].
have Tgt0 : Z.lt Z0 (T counting_sim) by [].
split=> //.
have [X [-> rows cols _ _]] := C3_observation_shape sz Tgt0.
by exists X; split=> //; split=> //; apply: Nat2Z.inj; rewrite rows.
Defined.

Lemma C7_cov_spd_witness :
  exists self : BernoulliGLMRaw counting_gen,
    [/\ @__init__ counting_gen (Zpos 2%positive) None 0%N = ok self,
        let x : 'cV[R]_9 := const_mx 1 in 0 < (x^T *m cov self *m x) 0 0
      & ~~ eigenvalue (cov self) 0].
Proof.
have [self [init_eq _ pd eig]] :=
  @C7_cov_spd counting_gen (Zpos 2%positive) None 0%N.
exists self; split=> //; last exact: eig.
apply: pd; apply/eqP => /matrixP /(_ ord0 ord0) /eqP.
by rewrite !mxE oner_eq0.
Defined.

Lemma params_same j :
  j != 2 -> nth 0 params_hi j = nth 0 params_lo j.
Proof. by do 11?[case: j => [|j] //]; rewrite /= !nth_nil. Qed.

Lemma C9_monotone_witness :
  exists p p' : 'rV[R]_3,
    [/\ success_prob (design_matrix counting_sim3) (slice_from 1 params_lo)
          (nth 0 params_lo 0) = ok p,
        success_prob (design_matrix counting_sim3) (slice_from 1 params_hi)
          (nth 0 params_hi 0) = ok p',
        p ord0 ord0 < p' ord0 ord0
      & p' ord0 ord_max < p ord0 ord_max].
Proof.
have sz : size params_lo = 10%N by [].
have sz' : size params_hi = 10%N by [].
have lt_k : nth 0 params_lo 2 < nth 0 params_hi 2 by rewrite /= ltr01.
have [p [p' [e e' mono]]] :=
  @C9_monotone counting_gen counting_sim3 params_lo params_hi
    (Ordinal (isT : (1 < 9)%N)) sz sz' params_same lt_k.
exists p, p'; split=> //.
- apply: (mono ord0).1.
  by rewrite /design_matrix /= mxE /= subr0 add0r mul1r ltr01.
- apply: (mono ord_max).2.
  rewrite /design_matrix /= mxE /= add0r mul1r subr_lt0.
  by rewrite ltr1n.
Defined.

(** C9 (as stated) fails in float64: with V[0,t] = 1.0 > 0, intercept 1.0
    and the other weights 0.0, raising f_0 from 0.0 to 2^-60 leaves the
    linear predictor bit-identical (1.0 + 2^-60 rounds to 1.0), so p_t is
    the same float whatever function expit is, not a larger one. *)
Lemma C9_counterexample :
  [/\ PrimFloat.ltb 0%float (nth 0%float Vcol_ones 0) = true,
      PrimFloat.ltb (nth 0%float f64_lo 0) (nth 0%float f64_hi 0) = true,
      forall j, j != 0%N -> nth 0%float f64_hi j = nth 0%float f64_lo j,
      eta_f64 Vcol_ones f64_hi 1%float = eta_f64 Vcol_ones f64_lo 1%float
    & forall expit_f64 : float -> float,
        expit_f64 (eta_f64 Vcol_ones f64_hi 1%float) =
        expit_f64 (eta_f64 Vcol_ones f64_lo 1%float)].
Proof.
have eta_same :
  eta_f64 Vcol_ones f64_hi 1%float = eta_f64 Vcol_ones f64_lo 1%float.
  by vm_compute.
split.
- by vm_compute.
- by vm_compute.
- by do 10?[case=> [|] //].
- exact: eta_same.
- by move=> expit_f64; rewrite eta_same.
Qed.

Lemma C10_no_T_validation_witness :
  exists (self : BernoulliGLMRaw counting_gen) (X : ndarray2),
    [/\ @__init__ counting_gen Z0 None 0%N = ok self,
        (observation_model self params_lo).1 = ok X,
        nrows X = 0%N & ncols X = 10%N].
Proof.
have [self [init_eq _ obs]] := @C10_no_T_validation counting_gen Z0 None 0%N.
have [X [obs_eq rows cols]] := obs erefl params_lo erefl.
by exists self, X.
Defined.

(* ---------------------------------------------------------------------- *)
(* Further properties of the link and of the linear predictor              *)
(* ---------------------------------------------------------------------- *)

Lemma expN (x : R) : exp (- x) = (exp x)^-1.
Proof. exact: exp_Ropp. Qed.

Lemma expit_opp (x : R) : expit (- x) = 1 - expit x.
Proof.
rewrite /expit opprK expN.
have e_gt0 := exp_gt0 x.
have e_neq0 : exp x != 0 by rewrite gt_eqF.
have d_neq0 : 1 + exp x != 0 by rewrite gt_eqF // ltr_wpDr // ltW.
have -> : 1 + (exp x)^-1 = (1 + exp x) / exp x.
  by rewrite mulrDl mul1r divff // addrC.
rewrite !div1r invf_div -[X in X - _](divff d_neq0) -mulrBl addrK.
by rewrite div1r.
Qed.

Lemma success_prob_row {n : nat} (V : 'M[R]_(9, n)) (f : seq R) (beta : R) :
  size f = 9%N ->
  success_prob V f beta =
    ok (\row_t expit (\sum_(k < 9) V k t * nth 0 f k + beta)).
Proof.
move=> sz; rewrite /success_prob /matvec sz eqxx /=.
congr (ok _); apply/matrixP => i t; rewrite !mxE ord1.
by congr (expit (_ + _)); apply: eq_bigr => k _; rewrite !mxE.
Qed.

Lemma F_spec_band (i k : 'I_9) : (i.+2 < k)%N -> F_spec k i = 0.
Proof.
move=> lt_ik; rewrite mxE.
have -> : ((k : nat) == i) = false.
  by apply: gtn_eqF; apply: ltn_trans lt_ik; apply: ltnW.
have -> : ((k : nat) == i.+1) = false by apply: gtn_eqF; apply: ltnW.
by have -> : ((k : nat) == i.+2) = false by apply: gtn_eqF.
Qed.

Lemma gram_band (i j : 'I_9) :
  (i.+2 < j)%N -> (F_spec^T *m F_spec) i j = 0.
Proof.
move=> lt_ij; rewrite mxE big1 // => k _; rewrite mxE.
case: (ltnP k j) => [lt_kj | le_jk]; first by rewrite (F_spec_lower lt_kj) mulr0.
by rewrite F_spec_band ?mul0r //; apply: leq_trans lt_ij le_jk.
Qed.

Lemma gram_sym : (F_spec^T *m F_spec)^T = F_spec^T *m F_spec.
Proof. by rewrite trmx_mul trmxK. Qed.

(* ---------------------------------------------------------------------- *)
(* Further properties of the class                                         *)
(* ---------------------------------------------------------------------- *)

Section Properties.

Variable gen : Generator.
Implicit Types (self : BernoulliGLMRaw gen) (g : gstate gen).
Implicit Types (params f : seq R).

Lemma run_calls_T self cs : T (run_calls self cs) = T self.
Proof.
rewrite /run_calls; elim: cs self => [//|c cs IH] self /=.
by rewrite IH; case: c => [|params]; rewrite /= method_T.
Qed.

(** X1: on an instance built with a negative T, observation_model raises
    for every parameter vector, IndexError for an empty one and ValueError
    (from the size=(9, T) draw) for every other one, and it does so before
    the generator is used: the instance is left exactly as it was. *)
Theorem X1_negative_T self params :
  Z.lt (T self) Z0 ->
  observation_model self params =
    (raise (if params is [::] then IndexError else ValueError), self).
Proof.
move=> /Z.ltb_lt Tlt0; case: self Tlt0 => T0 g c /= Tlt0.
case: params => [|beta f] //.
rewrite /observation_model /method /observation_model_body /bind /lift /=.
by rewrite /normal_size /= Tlt0.
Qed.

(** X2: prior and observation_model compose: for every T >= 0 and every
    injected generator, constructing an instance, sampling the prior and
    simulating from the sample succeeds, with a length-10 parameter vector
    and a T x 10 observation array. *)
Theorem X2_full_run_ok (T0 : Z) g (d : gstate gen) :
  Z.le Z0 T0 ->
  exists (theta : seq R) (X : ndarray2),
    [/\ full_run T0 g d = ok (theta, X),
        size theta = 10%N,
        Z.of_nat (nrows X) = T0
      & ncols X = 10%N].
Proof.
move=> Tge0; rewrite /full_run init_ok /= prior_run /=.
set bg := rng_normal _ _ _ _; set fg := rng_multivariate_normal _ _ _ _.
have sz : size (bg.1 :: tolist fg.1) = 10%N by rewrite [LHS]/= size_tolist.
have Tge0' : Z.ltb T0 Z0 = false by apply/Z.ltb_ge.
rewrite (@observation_model_run gen (MkSim T0 fg.2 Sigma) _ sz Tge0') /=.
set X := NdArray2 _; exists (bg.1 :: tolist fg.1), X; split=> //.
by rewrite /= Z2Nat.id.
Qed.

(** X3: for a weight vector of length 9 the success probabilities are
    defined and lie strictly between 0 and 1, whatever the design matrix
    and the parameters are, so the probability check of the binomial draw
    never fails. *)
Theorem X3_prob_bounds {n : nat} (V : 'M[R]_(9, n)) f (beta : R) :
  size f = 9%N ->
  exists p : 'rV[R]_n,
    success_prob V f beta = ok p /\
    forall t, 0 < p ord0 t < 1.
Proof.
move=> sz; rewrite (success_prob_row V beta sz); eexists; split; first by [].
by move=> t; rewrite mxE expit_gt0 expit_lt1.
Qed.

(** X4: when all nine weights are zero the design matrix has no influence:
    every success probability is 1 / (1 + exp (- beta)), which is 1/2 for
    beta = 0. *)
Theorem X4_zero_weights {n : nat} (V : 'M[R]_(9, n)) f (beta : R) :
  size f = 9%N -> (forall k, nth 0 f k = 0) ->
  success_prob V f beta = ok (const_mx (1 / (1 + exp (- beta)))) /\
  (beta = 0 -> success_prob V f beta = ok (const_mx 2%:R^-1)).
Proof.
move=> sz f0.
have pE : success_prob V f beta = ok (const_mx (1 / (1 + exp (- beta)))).
  rewrite (success_prob_row V beta sz); congr (ok _).
  apply/matrixP => i t; rewrite !mxE big1 ?add0r // => k _.
  by rewrite f0 mulr0.
split=> // b0; rewrite pE b0 oppr0.
have -> : exp 0 = 1 by exact: exp_0.
by rewrite div1r.
Qed.

(** X5: in exact real arithmetic, negating the intercept and all weights
    mirrors the success probabilities: each p_t becomes 1 - p_t.  (In
    float64 the two sides agree up to rounding only.) *)
Theorem X5_sign_symmetry {n : nat} (V : 'M[R]_(9, n)) f (beta : R) :
  size f = 9%N ->
  exists p p' : 'rV[R]_n,
    [/\ success_prob V f beta = ok p,
        success_prob V [seq - x | x <- f] (- beta) = ok p'
      & forall t, p' ord0 t = 1 - p ord0 t].
Proof.
move=> sz.
have sz' : size [seq - x | x <- f] = 9%N by rewrite size_map.
rewrite (success_prob_row V beta sz) (success_prob_row V (- beta) sz').
do 2![eexists]; split; [by [] | by [] | move=> t].
rewrite !mxE -expit_opp opprD; congr (expit (_ + _)).
rewrite -sumrN; apply: eq_bigr => k _.
by rewrite (nth_map 0) ?sz // mulrN.
Qed.

(** X6: in exact real arithmetic, raising the intercept alone strictly
    raises every success probability.  (In float64 the increase can be
    lost to rounding or to the saturation of expit.) *)
Theorem X6_intercept_monotone {n : nat} (V : 'M[R]_(9, n)) f
    (beta beta' : R) :
  size f = 9%N -> beta < beta' ->
  exists p p' : 'rV[R]_n,
    [/\ success_prob V f beta = ok p,
        success_prob V f beta' = ok p'
      & forall t, p ord0 t < p' ord0 t].
Proof.
move=> sz lt_b.
rewrite (success_prob_row V beta sz) (success_prob_row V beta' sz).
do 2![eexists]; split; [by [] | by [] | move=> t].
by rewrite !mxE; apply: expit_lt; rewrite ltrD2l.
Qed.

(** X7: the inverse of the cached covariance is the precision matrix
    F^T F, which is symmetric and has bandwidth 2: its entry (i, j) is zero
    whenever i and j are more than two apart. *)
Theorem X7_precision_band (T0 : Z) (r : option (gstate gen))
    (d : gstate gen) :
  exists (F : 'M[R]_9) self,
    [/\ build_F = ok F,
        __init__ T0 r d = ok self,
        invmx (cov self) = F^T *m F,
        (invmx (cov self))^T = invmx (cov self)
      & forall i j : 'I_9, (i.+2 < j)%N || (j.+2 < i)%N ->
          invmx (cov self) i j = 0].
Proof.
exists F_spec, (MkSim T0 (if r is Some g then g else d) Sigma).
have precE : invmx Sigma = F_spec^T *m F_spec by rewrite /Sigma invmxK.
split; rewrite /= ?precE ?gram_sym //; first exact: build_F_ok.
  exact: init_ok.
move=> i j /orP [lt_ij | lt_ji]; first exact: gram_band.
by rewrite -gram_sym mxE gram_band.
Qed.

(** X8: the determinant of the cached covariance is the inverse square of
    the product of the diagonal of F, prod_i (1 + sqrt (i/9)); it is
    strictly positive. *)
Theorem X8_cov_det (T0 : Z) (r : option (gstate gen)) (d : gstate gen) :
  exists self,
    [/\ __init__ T0 r d = ok self,
        \det (cov self) =
          (\prod_(i < 9) (1 + sqrt ((i : nat)%:R / 9%:R))) ^- 2
      & 0 < \det (cov self)].
Proof.
exists (MkSim T0 (if r is Some g then g else d) Sigma).
have detF : \det F_spec = \prod_(i < 9) (1 + sqrt ((i : nat)%:R / 9%:R)).
  have trig : is_trig_mx F_spec by apply/is_trig_mxP; exact: F_spec_lower.
  rewrite det_trig //.
  by apply: eq_bigr => i _; rewrite mxE eqxx.
have detS : \det Sigma = (\det F_spec) ^- 2.
  by rewrite /Sigma det_inv det_mulmx det_tr -expr2.
split; first exact: init_ok.
- by rewrite /= detS detF.
- rewrite /= detS invr_gt0 exprn_gt0 // detF.
  by apply: prodr_gt0 => i _; rewrite ltr_wpDr // sqrt_ge0.
Qed.

(** X9: whatever calls were made on an instance before, including calls
    that raised, T is unchanged and observation_model on a length-10
    parameter vector still returns a T x 10 array (for T >= 0): a failed
    call leaves nothing behind but the advanced generator. *)
Theorem X9_usable_after_calls self (cs : seq call) params :
  size params = 10%N -> Z.le Z0 (T self) ->
  T (run_calls self cs) = T self /\
  exists X : ndarray2,
    [/\ (observation_model (run_calls self cs) params).1 = ok X,
        Z.of_nat (nrows X) = T self
      & ncols X = 10%N].
Proof.
move=> sz Tge0; split; first exact: run_calls_T.
have Tge0' : Z.ltb (T (run_calls self cs)) Z0 = false.
  by rewrite run_calls_T; exact/Z.ltb_ge.
rewrite (observation_model_run sz Tge0') /=.
set X := NdArray2 _; exists X; split=> //.
by rewrite /= run_calls_T Z2Nat.id.
Qed.

(** X10: the returned array carries the covariates the outcomes were drawn
    with: the probabilities handed to the binomial draw are
    p_t = 1 / (1 + exp (- (sum_k X[t,k+1] * params[k+1] + params[0]))),
    computed from the returned array X and the parameters alone, and
    column 0 of X holds the outcomes of that draw. *)
Theorem X10_likelihood_from_output self params :
  size params = 10%N -> Z.le Z0 (T self) ->
  exists (X : ndarray2) (p : 'rV[R]_(Z.to_nat (T self)))
         (z : 'rV['I_2]_(Z.to_nat (T self))) g2,
    [/\ observation_model self params = (ok X, MkSim (T self) g2 (cov self)),
        rng_binomial gen 1 p (after_design self) = (z, g2),
        forall t : 'I_(Z.to_nat (T self)), p ord0 t =
          1 / (1 + exp (- (\sum_(k < 9) getitem2 X t k.+1 * nth 0 params k.+1
                           + nth 0 params 0)))
      & forall t : 'I_(Z.to_nat (T self)),
          getitem2 X t 0 = (z ord0 t : nat)%:R].
Proof.
move=> sz /Z.ltb_ge Tge0; rewrite (observation_model_run sz Tge0).
set V := design_matrix self; set p := p_row V params.
case E: (rng_binomial _ _ _ _) => [z g2] /=.
set X := NdArray2 _; exists X, p, z, g2; split=> //.
- move=> t; rewrite mxE /eta_at.
  congr (1 / (1 + exp (- (_ + _)))); apply: eq_bigr => k _.
  rewrite (getitem2E _ t (rshift 1 k)) row_mxEr.
  by rewrite mxE.
- move=> t.
  by rewrite (getitem2E _ t (lshift 9 ord0)) row_mxEl !mxE.
Qed.

End Properties.

Lemma X1_negative_T_witness :
  observation_model negative_sim params_lo = (raise ValueError, negative_sim).
Proof. exact: (@X1_negative_T counting_gen negative_sim params_lo erefl). Defined.

Lemma X2_full_run_ok_witness :
  exists (theta : seq R) (X : ndarray2),
    @full_run counting_gen (Zpos 2%positive) 0%N 0%N = ok (theta, X) /\
    size theta = 10%N.
Proof.
have Tge0 : Z.le Z0 (Zpos 2%positive) by [].
have [theta [X [run sz _ _]]] := @X2_full_run_ok counting_gen _ 0%N 0%N Tge0.
by exists theta, X.
Defined.

Lemma X3_prob_bounds_witness :
  exists p : 'rV[R]_2,
    success_prob (design_matrix counting_sim) weights_hi 0 = ok p /\
    0 < p ord0 ord0 < 1.
Proof.
have sz : size weights_hi = 9%N by [].
have [p [pE bounds]] := X3_prob_bounds (design_matrix counting_sim) 0 sz.
by exists p; split=> //; exact: bounds.
Defined.

Lemma X4_zero_weights_witness :
  success_prob (design_matrix counting_sim) (nseq 9 0) 0 =
    ok (const_mx 2%:R^-1).
Proof.
have sz : size (nseq 9 (0 : R)) = 9%N by [].
have f0 k : nth 0 (nseq 9 (0 : R)) k = 0 by rewrite nth_nseq; case: ifP.
have [_ half] := @X4_zero_weights _ (design_matrix counting_sim) _ 0 sz f0.
exact: half.
Defined.

Lemma X5_sign_symmetry_witness :
  exists p p' : 'rV[R]_2,
    [/\ success_prob (design_matrix counting_sim) weights_hi 1 = ok p,
        success_prob (design_matrix counting_sim)
          [seq - x | x <- weights_hi] (- 1) = ok p'
      & p' ord0 ord0 = 1 - p ord0 ord0].
Proof.
have sz : size weights_hi = 9%N by [].
have [p [p' [e e' sym]]] :=
  X5_sign_symmetry (design_matrix counting_sim) 1 sz.
by exists p, p'; split=> //; exact: sym.
Defined.

Lemma X6_intercept_monotone_witness :
  exists p p' : 'rV[R]_2,
    [/\ success_prob (design_matrix counting_sim) weights_hi 0 = ok p,
        success_prob (design_matrix counting_sim) weights_hi 1 = ok p'
      & p ord0 ord0 < p' ord0 ord0].
Proof.
have sz : size weights_hi = 9%N by [].
have [p [p' [e e' mono]]] :=
  X6_intercept_monotone (design_matrix counting_sim) sz (ltr01 : (0 : R) < 1).
by exists p, p'; split=> //; exact: mono.
Defined.

Lemma X7_precision_band_witness :
  exists self : BernoulliGLMRaw counting_gen,
    @__init__ counting_gen (Zpos 2%positive) None 0%N = ok self /\
    invmx (cov self) (inord 0) (inord 3) = 0.
Proof.
have [F [self [_ init_eq _ _ band]]] :=
  @X7_precision_band counting_gen (Zpos 2%positive) None 0%N.
exists self; split; first exact: init_eq.
by apply: band; rewrite !inordK.
Defined.

Lemma X9_usable_after_calls_witness :
  T (run_calls counting_sim calls_with_failure) = T counting_sim /\
  exists X : ndarray2,
    (observation_model (run_calls counting_sim calls_with_failure)
       params_lo).1 = ok X /\ ncols X = 10%N.
Proof.
have sz : size params_lo = 10%N by [].
have Tge0 : Z.le Z0 (T counting_sim) by [].
have [Teq [X [obs _ cols]]] :=
  X9_usable_after_calls calls_with_failure sz Tge0.
by split; [exact: Teq | exists X].
Defined.

Lemma X10_likelihood_from_output_witness :
  exists X : ndarray2,
    (observation_model counting_sim params_hi).1 = ok X.
Proof.
have sz : size params_hi = 10%N by [].
have Tge0 : Z.le Z0 (T counting_sim) by [].
have [X [p [z [g2 [obs _ _ _]]]]] :=
  X10_likelihood_from_output sz Tge0.
by exists X; rewrite obs.
Defined.
